(** * streamUtilities: the preview update / retry flow of [src/index.tsx]

    The plugin is single-threaded and event driven.  Every [async] function
    of the source is split at its [await]s: the part before the [await] runs
    when the function is called, the part after it runs when the host
    completes the awaited operation.  The module-level variables
    ([retryUpdate], [streamId]) and the host objects the code talks to (the
    timer queue, the REST client, the Flux dispatcher, the user setting) are
    fields of one explicit [State]; function bodies are written in a small
    state monad over it. *)

From Stdlib Require Import ZArith List String Bool Lia.
Import ListNotations.
Open Scope Z_scope.

(** ** Data *)

Definition StreamKey := string.

(** Handles returned by [setTimeout] in a browser are positive integers, so
    the truthiness test [!retryUpdate] only recognises [undefined]. *)
Definition TimerId := positive.
Definition RequestId := positive.
Bind Scope positive_scope with TimerId RequestId.

(** [ImageData | ImageBitmap]: the dimensions the code reads, and a tag
    standing for the pixel contents. *)
Record ImageData := mkImage { width : Z; height : Z; pixels : nat }.

(** The string [canvas.toDataURL("image/jpeg")] returns, kept symbolic: the
    JPEG encoding of a canvas of the given size drawn from the given pixels. *)
Inductive DataURL := Jpeg (w h : Z) (px : nat).

(** The object [RestAPI.post] rejects with: [e.status], [e.body.retry_after].
    [retry_after] is kept integral; [setTimeout] receives it as is. *)
Record Body := mkBody { retry_after : Z }.
Record HttpError := mkError { status : Z; body : Body }.

Inductive Response := Ok | Fail (e : HttpError).

(** How an [async] call ends. *)
Inductive Completion := Resolved | Rejected (e : HttpError).

(** Who called [postPreview]: [updatePreview] (line 105, the promise is
    dropped) or the timer callback (line 138, the promise is awaited). *)
Inductive Caller := Detached | RetryCallback.

(** A pending timer of the host.  The only callback the module ever passes
    to [setTimeout] is the closure of lines 137-140, so a timer is that
    closure's captured [streamKey] and [imageData]. *)
Record Timer := mkTimer
  { tid : TimerId; due : Z; tkey : StreamKey; timg : DataURL }.

(** A [RestAPI.post] whose answer has not arrived yet. *)
Record Request := mkRequest
  { rid : RequestId; rkey : StreamKey; rimg : DataURL; rcaller : Caller }.

(** What the host can observe, in order. *)
Inductive Obs :=
| Dispatch (streamKey : StreamKey) (previewURL : DataURL)
| Post (r : RequestId) (streamKey : StreamKey) (thumbnail : DataURL)
| GetSetting
| UpdateSetting (b : bool)
| Unhandled (e : HttpError).

(** [RTCConnectionVideoEventArgs]; a missing [streamId] is [None]. *)
Module Rtc.
Record Args := mk
  { context : string; userId : string; streamId : option Z }.
End Rtc.

Record State := mkState
  { retryUpdate : option TimerId;        (* let retryUpdate: any | undefined *)
    streamId : option Z;                 (* let streamId: number, unset at load *)
    disableStreamPreviews : bool;        (* the persisted user setting *)
    currentUser : string;                (* UserStore.getCurrentUser().id *)
    timers : list Timer;                 (* host: pending timers *)
    nextTimer : TimerId;                 (* host: next fresh handle *)
    now : Z;                             (* host: clock *)
    inflight : list Request;             (* host: unanswered posts *)
    nextRequest : RequestId;
    trace : list Obs }.

Definition maxWidth : Z := 512.
Definition maxHeight : Z := 512.

(** ** The state monad *)

Definition M (A : Type) : Type := State -> A * State.

Definition ret {A} (a : A) : M A := fun s => (a, s).
Definition bind {A B} (m : M A) (k : A -> M B) : M B :=
  fun s => let (a, s') := m s in k a s'.
Definition exec {A} (m : M A) (s : State) : State := snd (m s).

Declare Scope m_scope.
Delimit Scope m_scope with m.
Notation "x <- m ;; k" := (bind m (fun x => k))
  (at level 61, m at next level, right associativity) : m_scope.
Notation "m ;; k" := (bind m (fun _ => k))
  (at level 61, right associativity) : m_scope.
Open Scope m_scope.

Definition gets {A} (f : State -> A) : M A := fun s => (f s, s).
Definition modify (f : State -> State) : M unit := fun s => (tt, f s).

Definition set_retryUpdate (v : option TimerId) (s : State) : State :=
  mkState v (streamId s) (disableStreamPreviews s) (currentUser s)
          (timers s) (nextTimer s) (now s) (inflight s) (nextRequest s)
          (trace s).

Definition set_streamId (v : option Z) (s : State) : State :=
  mkState (retryUpdate s) v (disableStreamPreviews s) (currentUser s)
          (timers s) (nextTimer s) (now s) (inflight s) (nextRequest s)
          (trace s).

Definition set_setting (b : bool) (s : State) : State :=
  mkState (retryUpdate s) (streamId s) b (currentUser s)
          (timers s) (nextTimer s) (now s) (inflight s) (nextRequest s)
          (trace s).

Definition set_timers (l : list Timer) (s : State) : State :=
  mkState (retryUpdate s) (streamId s) (disableStreamPreviews s)
          (currentUser s) l (nextTimer s) (now s) (inflight s)
          (nextRequest s) (trace s).

Definition set_nextTimer (t : TimerId) (s : State) : State :=
  mkState (retryUpdate s) (streamId s) (disableStreamPreviews s)
          (currentUser s) (timers s) t (now s) (inflight s)
          (nextRequest s) (trace s).

Definition set_now (t : Z) (s : State) : State :=
  mkState (retryUpdate s) (streamId s) (disableStreamPreviews s)
          (currentUser s) (timers s) (nextTimer s) t (inflight s)
          (nextRequest s) (trace s).

Definition set_inflight (l : list Request) (s : State) : State :=
  mkState (retryUpdate s) (streamId s) (disableStreamPreviews s)
          (currentUser s) (timers s) (nextTimer s) (now s) l
          (nextRequest s) (trace s).

Definition set_nextRequest (r : RequestId) (s : State) : State :=
  mkState (retryUpdate s) (streamId s) (disableStreamPreviews s)
          (currentUser s) (timers s) (nextTimer s) (now s) (inflight s)
          r (trace s).

Definition observe (o : Obs) (s : State) : State :=
  mkState (retryUpdate s) (streamId s) (disableStreamPreviews s)
          (currentUser s) (timers s) (nextTimer s) (now s) (inflight s)
          (nextRequest s) (trace s ++ [o]).

(** ** The host *)

(** [setTimeout(cb, delay)]: a negative delay counts as zero; the callback
    may run once the clock has reached [due]. *)
Definition setTimeout (key : StreamKey) (img : DataURL) (delay : Z)
  : M TimerId :=
  fun s =>
    let t := nextTimer s in
    (t, set_nextTimer (Pos.succ t)
          (set_timers (timers s ++ [mkTimer t (now s + Z.max 0 delay) key img])
                      s)).

(** [clearTimeout(t)]: nothing happens for a handle that is not pending. *)
Definition clearTimeout (t : TimerId) : M unit :=
  modify (fun s =>
    set_timers (filter (fun x => negb (Pos.eqb (tid x) t)) (timers s)) s).

(** [RestAPI.post({url: STREAM_PREVIEW(streamKey), body: {thumbnail}})]. *)
Definition RestAPI_post (c : Caller) (key : StreamKey) (img : DataURL)
  : M RequestId :=
  fun s =>
    let r := nextRequest s in
    (r, observe (Post r key img)
          (set_nextRequest (Pos.succ r)
             (set_inflight (inflight s ++ [mkRequest r key img c]) s))).

Definition FluxDispatcher_dispatch (key : StreamKey) (img : DataURL)
  : M unit :=
  modify (observe (Dispatch key img)).

Definition getSetting : M bool :=
  fun s => (disableStreamPreviews s, observe GetSetting s).

Definition updateSetting (b : bool) : M unit :=
  modify (fun s => observe (UpdateSetting b) (set_setting b s)).

(** Rounding up of [a / b], for [b > 0]. *)
Definition ceil_div (a b : Z) : Z := (a + b - 1) / b.

(** [createImageBitmap(data, {resizeWidth, resizeHeight})], dimensions only.
    With one of the two given, the HTML standard derives the other from the
    source's aspect ratio, rounded up. *)
Definition createImageBitmap (data : ImageData)
           (resizeWidth resizeHeight : option Z) : ImageData :=
  match resizeWidth, resizeHeight with
  | Some w, Some h => mkImage w h (pixels data)
  | Some w, None =>
      mkImage w (ceil_div (height data * w) (width data)) (pixels data)
  | None, Some h =>
      mkImage (ceil_div (width data * h) (height data)) h (pixels data)
  | None, None => data
  end.

(** ** The module *)

(** Lines 144-149. *)
Definition resetRetry : M unit :=
  r <- gets retryUpdate ;;
  match r with
  | None => ret tt
  | Some t => clearTimeout t ;; modify (set_retryUpdate None)
  end.

(** Lines 113-119. *)
Definition setLocalPreview (streamKey : StreamKey) (imageData : DataURL)
  : M unit :=
  FluxDispatcher_dispatch streamKey imageData.

(** Lines 121-128: [postPreview] up to its [await]. *)
Definition postPreview_call (c : Caller) (streamKey : StreamKey)
           (imageData : DataURL) : M RequestId :=
  RestAPI_post c streamKey imageData.

(** Lines 129-142: [postPreview] from the [await] on. *)
Definition postPreview_resume (streamKey : StreamKey) (imageData : DataURL)
           (r : Response) : M Completion :=
  match r with
  | Ok => ret Resolved
  | Fail e =>
      if negb (status e =? 429) then ret (Rejected e)
      else
        let retryAfter := retry_after (body e) in
        resetRetry ;;
        t <- setTimeout streamKey imageData retryAfter ;;
        modify (set_retryUpdate (Some t)) ;;
        ret Resolved
  end.

(** Lines 137-140: the timer callback, up to its [await] and from it on. *)
Definition retryCallback_call (streamKey : StreamKey) (imageData : DataURL)
  : M RequestId :=
  postPreview_call RetryCallback streamKey imageData.

Definition retryCallback_resume (c : Completion) : M Completion :=
  match c with
  | Resolved => modify (set_retryUpdate None) ;; ret Resolved
  | Rejected e => ret (Rejected e)
  end.

(** Lines 88-94: the resize step of [updatePreview]. *)
Definition resize (data : ImageData) : ImageData :=
  let isWidthLarge := width data >? maxWidth in
  createImageBitmap data
    (if isWidthLarge then Some maxWidth else None)
    (if isWidthLarge then None else Some maxHeight).

(** Lines 96-102: the canvas takes the bitmap's size and is encoded. *)
Definition toDataURL (bitmap : ImageData) : DataURL :=
  Jpeg (width bitmap) (height bitmap) (pixels bitmap).

(** Lines 87-111.  Nothing is read or written before the resize completes,
    so the function is taken from its call to its end in one piece. *)
Definition updatePreview (streamKey : StreamKey) (data : ImageData)
  : M unit :=
  let bitmap := resize data in
  let imageData := toDataURL bitmap in
  setLocalPreview streamKey imageData ;;
  postPreview_call Detached streamKey imageData ;;
  previewDisabled <- getSetting ;;
  if previewDisabled then ret tt else updateSetting true.

(** [if (e.streamId)]: zero and a missing value are falsy. *)
Definition truthy (z : option Z) : bool :=
  match z with
  | Some v => negb (v =? 0)
  | None => false
  end.

(** Lines 49-59. *)
Definition RTC_CONNECTION_VIDEO (e : Rtc.Args) : M unit :=
  myId <- gets currentUser ;;
  if negb (String.eqb (Rtc.context e) "stream")
     || negb (String.eqb (Rtc.userId e) myId)
  then ret tt
  else
    modify (set_streamId (Rtc.streamId e)) ;;
    if truthy (Rtc.streamId e) then ret tt else resetRetry.

(** The two menu actions.  [./utils], the streaming store and the native
    voice module are not part of this file: [streamToStreamKey], the
    store's answer and the frame the voice module hands out for a stream id
    are parameters ([None] stands for an exception or a rejection).  A
    [File] is given by the bitmap it decodes to.  The result tells whether
    the promise resolved. *)
Section Upload.
Variable Stream : Type.
Variable streamToStreamKey : option Stream -> option StreamKey.
Variable getCurrentUserActiveStream : option Stream.
Variable getNextVideoOutputFrame : option Z -> option ImageData.

(** Lines 63-73, from the moment the file chooser answers. *)
Definition uploadPreview (stream : option Stream) (file : option ImageData)
  : M bool :=
  match file with
  | None => ret true
  | Some f =>
      let stream :=
        match stream with
        | Some st => Some st
        | None => getCurrentUserActiveStream
        end in
      match streamToStreamKey stream with
      | None => ret false
      | Some streamKey => updatePreview streamKey f ;; ret true
      end
  end.

(** Lines 75-85. *)
Definition uploadScreenPreview (stream : option Stream) : M bool :=
  let stream :=
    match stream with
    | Some st => Some st
    | None => getCurrentUserActiveStream
    end in
  match streamToStreamKey stream with
  | None => ret false
  | Some streamKey =>
      id <- gets streamId ;;
      match getNextVideoOutputFrame id with
      | None => ret false
      | Some imageData => updatePreview streamKey imageData ;; ret true
      end
  end.
End Upload.

(** ** The event loop *)

Inductive Event :=
| EvUpdate (streamKey : StreamKey) (data : ImageData)
    (* a menu action reaches [updatePreview] *)
| EvResponse (r : RequestId) (resp : Response)
    (* the answer to an unanswered post arrives *)
| EvTimer (t : TimerId)
    (* the host runs a pending timer that is due *)
| EvTick (d : Z)
    (* time passes *)
| EvRtc (e : Rtc.Args).
    (* the host delivers RTC_CONNECTION_VIDEO *)

Definition find_request (r : RequestId) (l : list Request) : option Request :=
  find (fun q => Pos.eqb (rid q) r) l.

Definition find_timer (t : TimerId) (l : list Timer) : option Timer :=
  find (fun x => Pos.eqb (tid x) t) l.

(** An answer resumes [postPreview]; when the timer callback is the caller,
    the callback resumes after it.  A rejection nobody awaits is reported
    by the host. *)
Definition deliver (q : Request) (resp : Response) : M unit :=
  modify (fun s =>
    set_inflight
      (filter (fun x => negb (Pos.eqb (rid x) (rid q))) (inflight s)) s) ;;
  c <- postPreview_resume (rkey q) (rimg q) resp ;;
  c' <- match rcaller q with
        | Detached => ret c
        | RetryCallback => retryCallback_resume c
        end ;;
  match c' with
  | Resolved => ret tt
  | Rejected e => modify (observe (Unhandled e))
  end.

(** A timer that runs leaves the host's queue and starts its callback. *)
Definition fire (x : Timer) : M unit :=
  modify (fun s =>
    set_timers
      (filter (fun y => negb (Pos.eqb (tid y) (tid x))) (timers s)) s) ;;
  retryCallback_call (tkey x) (timg x) ;;
  ret tt.

Definition step (ev : Event) (s : State) : State :=
  match ev with
  | EvUpdate k d => exec (updatePreview k d) s
  | EvResponse r resp =>
      match find_request r (inflight s) with
      | Some q => exec (deliver q resp) s
      | None => s
      end
  | EvTimer t =>
      match find_timer t (timers s) with
      | Some x => if due x <=? now s then exec (fire x) s else s
      | None => s
      end
  | EvTick d => set_now (now s + Z.max 0 d) s
  | EvRtc e => exec (RTC_CONNECTION_VIDEO e) s
  end.

Definition run (evs : list Event) (s : State) : State :=
  fold_left (fun st ev => step ev st) evs s.

(** The state after the plugin is loaded, for the user [me]. *)
Definition init (me : string) : State :=
  mkState None None false me [] 1%positive 0 [] 1%positive [].

Definition reachable (me : string) (s : State) : Prop :=
  exists evs, run evs (init me) = s.

(** At most one timer is pending, and the slot holds its handle. *)
Definition single_slot (s : State) : Prop :=
  timers s = []
  \/ exists x, timers s = [x] /\ retryUpdate s = Some (tid x).

(** The event is not the answer to a post made by the timer callback. *)
Definition not_retry_answer (ev : Event) (s : State) : Prop :=
  match ev with
  | EvResponse r _ =>
      match find_request r (inflight s) with
      | Some q => rcaller q = Detached
      | None => True
      end
  | _ => True
  end.

Fixpoint no_retry_answers (evs : list Event) (s : State) : Prop :=
  match evs with
  | [] => True
  | ev :: evs' => not_retry_answer ev s /\ no_retry_answers evs' (step ev s)
  end.

(** ** The context menus *)

(** [User] of the host's types: the field the code reads. *)
Module User.
Record t := mk { id : string }.
End User.

(** Lines 151-205.  A patch receives the menu's [children] array and
    pushes onto it; here it returns the array's new contents.  The [action]
    closures are kept as data and run by [runAction]; icons are left out.
    [Stream] comes from [./types]: of a stream the code reads
    [ownerId]. *)
Section Menus.
Variable Stream : Type.
Variable ownerId : Stream -> string.
Variable streamToStreamKey : option Stream -> option StreamKey.
Variable getCurrentUserActiveStream : option Stream.
Variable getNextVideoOutputFrame : option Z -> option ImageData.

Inductive Action :=
| ActUpdateSetting (b : bool)
    (* () => disableStreamPreviews.updateSetting(!previewDisabled) *)
| ActUploadPreview (stream : Stream)
    (* () => uploadPreview(stream) *)
| ActUploadScreenPreview (stream : Stream).
    (* () => uploadScreenPreview(stream) *)

Inductive MenuNode :=
| MenuSeparator
| MenuCheckboxItem (checked : bool) (label id : string) (action : Action)
| MenuItem (label id : string) (action : Action).

(** Lines 157-180: what [streamContext] pushes. *)
Definition streamItems (previewDisabled : bool) (stream : Stream)
  : list MenuNode :=
  [ MenuSeparator;
    MenuCheckboxItem (negb previewDisabled) "Preview Auto-Update"
      "preview-auto-update" (ActUpdateSetting (negb previewDisabled));
    MenuSeparator;
    MenuItem "Upload Preview" "upload-preview" (ActUploadPreview stream);
    MenuItem "Capture Preview" "capture-preview"
      (ActUploadScreenPreview stream) ].

(** Lines 151-188. *)
Definition streamContext (children : list MenuNode) (stream : Stream)
  : M (list MenuNode) :=
  myId <- gets currentUser ;;
  if negb (String.eqb (ownerId stream) myId) then ret children
  else
    previewDisabled <- getSetting ;;
    ret (children ++ streamItems previewDisabled stream).

(** Lines 190-195. *)
Definition streamsContext (children : list MenuNode)
           (activeStreams : list Stream) : M (list MenuNode) :=
  match activeStreams with
  | [] => ret children
  | stream :: _ => streamContext children stream
  end.

(** Lines 197-205. *)
Definition userContext (children : list MenuNode) (user : User.t)
  : M (list MenuNode) :=
  myId <- gets currentUser ;;
  if negb (String.eqb (User.id user) myId) then ret children
  else
    match getCurrentUserActiveStream with
    | None => ret children
    | Some stream => streamContext children stream
    end.

(** A click on an entry; [file] is what the file chooser answers when the
    entry opens it. *)
Definition runAction (a : Action) (file : option ImageData) : M bool :=
  match a with
  | ActUpdateSetting b => updateSetting b ;; ret true
  | ActUploadPreview stream =>
      uploadPreview Stream streamToStreamKey getCurrentUserActiveStream
        (Some stream) file
  | ActUploadScreenPreview stream =>
      uploadScreenPreview Stream streamToStreamKey
        getCurrentUserActiveStream getNextVideoOutputFrame (Some stream)
  end.
End Menus.

Arguments MenuSeparator {Stream}.
Arguments MenuCheckboxItem {Stream}.
Arguments MenuItem {Stream}.
Arguments ActUpdateSetting {Stream}.
Arguments ActUploadPreview {Stream}.
Arguments ActUploadScreenPreview {Stream}.

(** ** Predicates on runs *)

Definition is_update (ev : Event) : bool :=
  match ev with
  | EvUpdate _ _ => true
  | _ => false
  end.

Definition is_dispatch (o : Obs) : bool :=
  match o with
  | Dispatch _ _ => true
  | _ => false
  end.

(** Handles and request ids in use lie below the host's counters and are
    pairwise distinct. *)
Definition fresh (s : State) : Prop :=
  (forall x, In x (timers s) -> (tid x < nextTimer s)%positive)
  /\ (forall q, In q (inflight s) -> (rid q < nextRequest s)%positive)
  /\ (forall t, retryUpdate s = Some t -> (t < nextTimer s)%positive)
  /\ NoDup (map tid (timers s))
  /\ NoDup (map rid (inflight s)).

(** No timer is pending and no post is unanswered. *)
Definition idle (s : State) : Prop := timers s = [] /\ inflight s = [].

(** Every post in the list of observations comes after a dispatch of the
    same key and image. *)
Definition posts_follow_dispatch (tr : list Obs) : Prop :=
  forall pre r k u rest,
    tr = pre ++ Post r k u :: rest -> In (Dispatch k u) pre.

(** Every payload still waiting (in an unanswered post or in a timer) has
    been dispatched. *)
Definition pending_dispatched (s : State) : Prop :=
  (forall q, In q (inflight s) -> In (Dispatch (rkey q) (rimg q)) (trace s))
  /\ (forall x, In x (timers s) -> In (Dispatch (tkey x) (timg x)) (trace s)).

Definition local_first (s : State) : Prop :=
  posts_follow_dispatch (trace s) /\ pending_dispatched s.

(** The state once the post [q] has been answered. *)
Definition answered (q : Request) (s : State) : State :=
  set_inflight
    (filter (fun x => negb (Pos.eqb (rid x) (rid q))) (inflight s)) s.

(** ** Sample data *)

Definition me : string := "42"%string.
Definition key1 : StreamKey := "123:456"%string.
Definition frame : ImageData := mkImage 1920 1080 7.
Definition thumb : DataURL := toDataURL (resize frame).
Definition tooMany (ra : Z) : Response := Fail (mkError 429 (mkBody ra)).
Definition sessionEnd : Rtc.Args := Rtc.mk "stream"%string me (Some 0).

(** An update is rate limited, its retry runs and is rate limited too. *)
Definition retry_limited : list Event :=
  [ EvUpdate key1 frame; EvResponse 1 (tooMany 5); EvTick 5; EvTimer 1;
    EvResponse 2 (tooMany 5) ].

(** A second update, taken while the retry of the first has just been
    rate limited, is rate limited as well. *)
Definition frame2 : ImageData := mkImage 1280 720 8.
Definition thumb2 : DataURL := toDataURL (resize frame2).
Definition second_limited : list Event :=
  retry_limited ++ [ EvUpdate key1 frame2; EvResponse 3 (tooMany 5) ].

(** The retry of a rate-limited update fails with [e]. *)
Definition retry_fails (e : HttpError) : list Event :=
  [ EvUpdate key1 frame; EvResponse 1 (tooMany 5); EvTick 5; EvTimer 1;
    EvResponse 2 (Fail e) ].

(** * Properties *)

(** ** Frame facts of the monadic operations *)

Ltac unfold_ops :=
  unfold exec, updatePreview, setLocalPreview, postPreview_call,
    retryCallback_call, retryCallback_resume, postPreview_resume,
    RTC_CONNECTION_VIDEO, resetRetry, deliver, fire, RestAPI_post,
    FluxDispatcher_dispatch, getSetting, updateSetting, setTimeout,
    clearTimeout, bind, ret, gets, modify in *.

Lemma resetRetry_empty s :
  retryUpdate s = None -> resetRetry s = (tt, s).
Proof.
  intros H. unfold resetRetry, bind, gets. rewrite H. reflexivity.
Qed.

Lemma resetRetry_slot s : retryUpdate (exec resetRetry s) = None.
Proof.
  unfold_ops. destruct (retryUpdate s) eqn:E; simpl; auto.
Qed.

Lemma resetRetry_timers s :
  timers (exec resetRetry s) =
  match retryUpdate s with
  | None => timers s
  | Some t => filter (fun x => negb (Pos.eqb (tid x) t)) (timers s)
  end.
Proof.
  unfold_ops. destruct (retryUpdate s); reflexivity.
Qed.

Lemma status_not_429 e : status e <> 429 -> (status e =? 429) = false.
Proof. intros H. apply Z.eqb_neq. exact H. Qed.

(** What the handling of a 429 does, in any state: the timer the slot
    names is cancelled, one timer is appended for the same payload, the
    slot names it, and the promise resolves. *)
Lemma postPreview_resume_429 key img e s :
  status e = 429 ->
  let r := postPreview_resume key img (Fail e) s in
  let t := nextTimer s in
  fst r = Resolved
  /\ retryUpdate (snd r) = Some t
  /\ timers (snd r) =
     timers (exec resetRetry s)
       ++ [mkTimer t (now s + Z.max 0 (retry_after (body e))) key img]
  /\ trace (snd r) = trace s
  /\ inflight (snd r) = inflight s.
Proof.
  intros H. unfold postPreview_resume. rewrite H. simpl.
  unfold_ops. destruct (retryUpdate s); simpl; auto.
Qed.

(** ** Cancelling the retry *)

(** C8. [resetRetry] is idempotent: with an empty slot it changes nothing,
    running it twice is running it once, and it always leaves the slot
    empty. *)
Theorem resetRetry_idempotent (s : State) :
  (retryUpdate s = None -> resetRetry s = (tt, s))
  /\ exec resetRetry (exec resetRetry s) = exec resetRetry s
  /\ retryUpdate (exec resetRetry s) = None.
Proof.
  split; [apply resetRetry_empty|].
  split; [|apply resetRetry_slot].
  unfold exec at 1.
  rewrite (resetRetry_empty (exec resetRetry s) (resetRetry_slot s)).
  reflexivity.
Qed.

Lemma resetRetry_idempotent_witness :
  resetRetry (init me) = (tt, init me)
  /\ exec resetRetry (exec resetRetry (init me)) = exec resetRetry (init me).
Proof.
  destruct (resetRetry_idempotent (init me)) as [H1 [H2 _]].
  split; [apply H1; reflexivity | exact H2].
Defined.

(** ** Answers other than 429 *)

Lemma postPreview_other_status_rejects' key img e s :
  status e <> 429 ->
  postPreview_resume key img (Fail e) s = (Rejected e, s).
Proof.
  intros H. unfold postPreview_resume.
  rewrite (status_not_429 e H). reflexivity.
Qed.

(** C3. When the post fails with a status other than 429, [postPreview]
    rejects with that very error and leaves the whole state as it was: no
    timer is scheduled, none is cancelled, the slot is not written. *)
Theorem postPreview_other_status_rejects
        (streamKey : StreamKey) (imageData : DataURL) (e : HttpError)
        (s : State) :
  status e <> 429 ->
  postPreview_resume streamKey imageData (Fail e) s = (Rejected e, s).
Proof.
  intros H. unfold postPreview_resume.
  rewrite (status_not_429 e H). reflexivity.
Qed.

Lemma postPreview_other_status_rejects_witness :
  let e := mkError 500 (mkBody 0) in
  let s := run [EvUpdate key1 frame] (init me) in
  postPreview_resume key1 thumb (Fail e) s = (Rejected e, s)
  /\ timers s = [].
Proof.
  split; [|reflexivity].
  apply postPreview_other_status_rejects. simpl. lia.
Defined.

(** ** The update *)

Lemma updatePreview_exec key data s :
  exec (updatePreview key data) s =
  let url := toDataURL (resize data) in
  let r := nextRequest s in
  mkState (retryUpdate s) (streamId s) true (currentUser s) (timers s)
    (nextTimer s) (now s)
    (inflight s ++ [mkRequest r key url Detached]) (Pos.succ r)
    (trace s ++ [Dispatch key url; Post r key url; GetSetting]
       ++ if disableStreamPreviews s then [] else [UpdateSetting true]).
Proof.
  destruct s as [ru si d cu ti nt nw inf nr tr].
  unfold_ops. unfold observe, set_nextRequest, set_inflight, set_setting.
  simpl. destruct d; simpl; repeat rewrite <- app_assoc; reflexivity.
Qed.

(** C9. When the file chooser answers with nothing, [uploadPreview]
    resolves and the state, observations included, is what it was: no
    dispatch, no post, no access to the setting. *)
Theorem uploadPreview_cancelled
        (Stream : Type) (streamToStreamKey : option Stream -> option StreamKey)
        (active stream : option Stream) (s : State) :
  uploadPreview Stream streamToStreamKey active stream None s = (true, s).
Proof. reflexivity. Qed.

Lemma uploadPreview_chosen
      (Stream : Type) (streamToStreamKey : option Stream -> option StreamKey)
      (active : option Stream) (st : Stream) (f : ImageData)
      (k : StreamKey) (s : State) :
  streamToStreamKey (Some st) = Some k ->
  uploadPreview Stream streamToStreamKey active (Some st) (Some f) s =
  (true, exec (updatePreview k f) s).
Proof.
  intros H. unfold uploadPreview. rewrite H. unfold bind, ret, exec.
  destruct (updatePreview k f s). reflexivity.
Qed.

(** C6. In [updatePreview] the dispatch of the local preview is observed
    before the post is issued, and when [updatePreview] ends the post is
    still unanswered: its result can only be known in a later turn. *)
Theorem updatePreview_publishes_before_post
        (streamKey : StreamKey) (data : ImageData) (s : State) :
  let s' := exec (updatePreview streamKey data) s in
  let url := toDataURL (resize data) in
  let r := nextRequest s in
  (exists rest,
      trace s' = trace s ++ Dispatch streamKey url :: Post r streamKey url :: rest)
  /\ inflight s' = inflight s ++ [mkRequest r streamKey url Detached].
Proof.
  cbv zeta. rewrite updatePreview_exec. cbv zeta. simpl. split; [|reflexivity].
  eexists. reflexivity.
Qed.

(** ** The setting *)

Lemma resetRetry_setting s :
  disableStreamPreviews (exec resetRetry s) = disableStreamPreviews s.
Proof. unfold_ops. destruct (retryUpdate s); reflexivity. Qed.

Lemma postPreview_resume_setting key img resp s :
  disableStreamPreviews (snd (postPreview_resume key img resp s)) =
  disableStreamPreviews s.
Proof.
  destruct resp as [|e]; [reflexivity|].
  unfold postPreview_resume.
  destruct (status e =? 429); cbn [negb]; [|reflexivity].
  unfold_ops. destruct (retryUpdate s); reflexivity.
Qed.

Lemma deliver_setting q resp s :
  disableStreamPreviews (exec (deliver q resp) s) = disableStreamPreviews s.
Proof.
  unfold exec, deliver, bind at 1 2. unfold modify at 1.
  set (s1 := set_inflight _ s).
  change (disableStreamPreviews s) with (disableStreamPreviews s1).
  rewrite <- (postPreview_resume_setting (rkey q) (rimg q) resp s1).
  destruct (postPreview_resume (rkey q) (rimg q) resp s1) as [c s2]. simpl.
  destruct (rcaller q), c; reflexivity.
Qed.

Lemma step_setting ev s :
  disableStreamPreviews (step ev s) =
  match ev with
  | EvUpdate _ _ => true
  | _ => disableStreamPreviews s
  end.
Proof.
  destruct ev as [k d|r resp|t|d|e]; simpl.
  - rewrite updatePreview_exec. reflexivity.
  - destruct (find_request r (inflight s)); [apply deliver_setting|reflexivity].
  - destruct (find_timer t (timers s)) as [x|]; [|reflexivity].
    destruct (due x <=? now s); reflexivity.
  - reflexivity.
  - unfold exec, RTC_CONNECTION_VIDEO, bind at 1, gets. 
    destruct (_ || _); [reflexivity|].
    unfold bind at 1, modify at 1.
    destruct (truthy (Rtc.streamId e)); [reflexivity|].
    apply (resetRetry_setting (set_streamId (Rtc.streamId e) s)).
Qed.

Lemma run_setting_latched evs s :
  disableStreamPreviews s = true -> disableStreamPreviews (run evs s) = true.
Proof.
  revert s. induction evs as [|ev evs IH]; intros s H; [exact H|].
  simpl. apply IH. rewrite step_setting. destruct ev; auto.
Qed.

(** C7. [updatePreview] reads the setting once; when it reads [false] it
    writes [true], when it reads [true] it writes nothing; either way the
    setting is [true] when it ends, and it stays [true] whatever happens
    next in the flow, the answer to the post included.  No step of the flow
    (an update, an answer, a timer, the session hook) takes the setting
    from [true] to [false]. *)
Theorem updatePreview_latches_setting
        (streamKey : StreamKey) (data : ImageData) (s : State) :
  let s' := exec (updatePreview streamKey data) s in
  (exists pre,
      trace s' =
      trace s ++ pre ++ GetSetting ::
        (if disableStreamPreviews s then [] else [UpdateSetting true]))
  /\ (forall evs, disableStreamPreviews (run evs s') = true)
  /\ (forall ev s0,
        implb (disableStreamPreviews s0) (disableStreamPreviews (step ev s0))
        = true).
Proof.
  cbv zeta. split; [|split].
  - rewrite updatePreview_exec. cbv zeta. simpl.
    eexists [_; _]. reflexivity.
  - intros evs. apply run_setting_latched.
    rewrite updatePreview_exec. reflexivity.
  - intros ev s0. rewrite step_setting.
    destruct ev, (disableStreamPreviews s0); reflexivity.
Qed.

(** ** A retry that fails *)

(** Whoever the caller is, an answer other than 429 ends in a rejection
    nobody handles; besides the request leaving the unanswered ones, that
    is all that happens. *)
Lemma deliver_other_status q e s :
  status e <> 429 ->
  deliver q (Fail e) s =
  (tt, observe (Unhandled e)
         (set_inflight
            (filter (fun x => negb (Pos.eqb (rid x) (rid q))) (inflight s))
            s)).
Proof.
  intros H. unfold deliver, bind, modify.
  rewrite postPreview_other_status_rejects' by exact H.
  destruct (rcaller q); reflexivity.
Qed.

(** C10. When the post made by the timer callback fails with a status
    other than 429, the callback stops at its [await]: the slot and the
    timers are what they were.  After a rate-limited update whose retry
    fails this way, no timer and no post is pending, yet the slot still
    holds the handle of the timer that ran. *)
Theorem failed_retry_leaves_slot (e : HttpError) :
  status e <> 429 ->
  (forall q s,
      rcaller q = RetryCallback ->
      let s' := exec (deliver q (Fail e)) s in
      retryUpdate s' = retryUpdate s /\ timers s' = timers s)
  /\ (let s := run (retry_fails e) (init me) in
      retryUpdate s = Some 1%positive /\ timers s = [] /\ inflight s = []).
Proof.
  intros H. split.
  - intros q s _. cbv zeta. unfold exec.
    rewrite deliver_other_status by exact H. split; reflexivity.
  - unfold retry_fails, run. cbn [fold_left].
    set (s4 := step (EvTimer 1) _).
    assert (E4 : s4 =
      mkState (Some 1%positive) None true me [] 2%positive 5
        [mkRequest 2 key1 thumb RetryCallback] 3%positive
        [Dispatch key1 thumb; Post 1 key1 thumb; GetSetting;
         UpdateSetting true; Post 2 key1 thumb]) by reflexivity.
    rewrite E4. unfold step. cbn [find_request find inflight rid Pos.eqb].
    unfold exec. rewrite deliver_other_status by exact H.
    repeat split; reflexivity.
Qed.

Lemma failed_retry_leaves_slot_witness :
  let s := run (retry_fails (mkError 500 (mkBody 0))) (init me) in
  retryUpdate s = Some 1%positive /\ timers s = [] /\ inflight s = [].
Proof.
  apply (failed_retry_leaves_slot (mkError 500 (mkBody 0))).
  simpl. lia.
Defined.

(** ** The single slot *)

Lemma resetRetry_single_slot s :
  single_slot s -> timers (exec resetRetry s) = [].
Proof.
  intros [H | [x [H1 H2]]]; rewrite resetRetry_timers.
  - rewrite H. destruct (retryUpdate s); reflexivity.
  - rewrite H1, H2. simpl. rewrite Pos.eqb_refl. reflexivity.
Qed.

Lemma resetRetry_keeps_single_slot s :
  single_slot s -> single_slot (exec resetRetry s).
Proof. intros H. left. apply resetRetry_single_slot, H. Qed.

(** While the slot tracks the pending timer, the handling of a 429 leaves
    exactly one timer pending: the new one. *)
Lemma postPreview_resume_429_single key img e s :
  status e = 429 ->
  single_slot s ->
  let s' := snd (postPreview_resume key img (Fail e) s) in
  timers s' =
    [mkTimer (nextTimer s) (now s + Z.max 0 (retry_after (body e))) key img]
  /\ retryUpdate s' = Some (nextTimer s).
Proof.
  intros H Hs. cbv zeta.
  destruct (postPreview_resume_429 key img e s H) as [_ [H2 [H3 _]]].
  rewrite H3, H2, (resetRetry_single_slot s Hs). split; reflexivity.
Qed.

Lemma postPreview_resume_single_slot key img resp s :
  single_slot s -> single_slot (snd (postPreview_resume key img resp s)).
Proof.
  intros Hs. destruct resp as [|e]; [exact Hs|].
  destruct (Z.eq_dec (status e) 429) as [E | E].
  - destruct (postPreview_resume_429_single key img e s E Hs) as [H1 H2].
    right. eexists. split; [exact H1 | exact H2].
  - rewrite postPreview_other_status_rejects' by exact E. exact Hs.
Qed.

(** Every step other than the answer to the callback's own post keeps the
    single slot: updates, rate-limited answers to updates in any number and
    order, timers running, time passing, session events. *)
Lemma single_slot_step ev s :
  single_slot s -> not_retry_answer ev s -> single_slot (step ev s).
Proof.
  intros Hs Hev. destruct ev as [k d|r resp|t|d|e]; simpl in *.
  - rewrite updatePreview_exec. exact Hs.
  - destruct (find_request r (inflight s)) as [q|]; [|exact Hs].
    unfold exec, deliver, bind, modify.
    set (s1 := set_inflight _ s).
    assert (H1 : single_slot s1) by exact Hs.
    pose proof (postPreview_resume_single_slot (rkey q) (rimg q) resp s1 H1)
      as H2.
    destruct (postPreview_resume (rkey q) (rimg q) resp s1) as [c s2].
    rewrite Hev. simpl in *. destruct c; exact H2.
  - destruct (find_timer t (timers s)) as [x|] eqn:F; [|exact Hs].
    destruct (due x <=? now s); [|exact Hs].
    left. unfold_ops. simpl.
    destruct Hs as [H | [y [H _]]]; rewrite H in *; [reflexivity|].
    simpl in F. destruct (Pos.eqb (tid y) t) eqn:E; [|discriminate].
    injection F as ->. simpl. rewrite Pos.eqb_refl. reflexivity.
  - exact Hs.
  - unfold exec, RTC_CONNECTION_VIDEO, bind at 1, gets.
    destruct (_ || _); [exact Hs|].
    unfold bind at 1, modify at 1.
    destruct (truthy (Rtc.streamId e)); [exact Hs|].
    apply (resetRetry_keeps_single_slot (set_streamId (Rtc.streamId e) s)).
    exact Hs.
Qed.

(** X6. Along every run in which no answer to a retry post arrives, at
    most one timer is pending and the slot holds its handle. *)
Lemma single_slot_run evs s :
  single_slot s -> no_retry_answers evs s -> single_slot (run evs s).
Proof.
  revert s. induction evs as [|ev evs IH]; intros s Hs Hev; [exact Hs|].
  destruct Hev as [H1 H2]. simpl. apply IH; [|exact H2].
  apply single_slot_step; assumption.
Qed.

Lemma single_slot_init u : single_slot (init u).
Proof. left. reflexivity. Qed.

(** ** Where the slot loses track *)

(** After the retry of a rate-limited update is rate limited itself, the
    callback's [retryUpdate = undefined] (line 139) runs after the nested
    [postPreview] has scheduled the next timer and stored its handle: that
    timer is pending and the slot is empty. *)
Lemma retry_limited_state :
  run retry_limited (init me) =
  mkState None None true me [mkTimer 2 10 key1 thumb] 3%positive 5 []
    3%positive
    [Dispatch key1 thumb; Post 1 key1 thumb; GetSetting; UpdateSetting true;
     Post 2 key1 thumb].
Proof. reflexivity. Qed.

Lemma retry_limited_not_single_slot :
  ~ single_slot (run retry_limited (init me)).
Proof.
  rewrite retry_limited_state. intros [H | [x [_ H]]]; discriminate.
Qed.

(** C1. In the state reached by [retry_limited] followed by a new update,
    the 429 answer to that update resolves and schedules its timer, but
    the timer that was already pending stays pending: two retries are
    scheduled after the handling. *)
Theorem postPreview_429_keeps_untracked_timer :
  let s := run (retry_limited ++ [EvUpdate key1 frame2]) (init me) in
  let r := postPreview_resume key1 thumb2 (tooMany 5) s in
  fst r = Resolved
  /\ retryUpdate s = None
  /\ timers s = [mkTimer 2 10 key1 thumb]
  /\ timers (snd r) = [mkTimer 2 10 key1 thumb; mkTimer 3 10 key1 thumb2].
Proof. repeat split; reflexivity. Qed.

(** C2. A reachable state with two pending retry timers, both of which run:
    each issues its own post. *)
Theorem two_pending_retry_timers :
  let s := run second_limited (init me) in
  let s' := run [EvTick 5; EvTimer 2; EvTimer 3] s in
  reachable me s
  /\ map tid (timers s) = [2%positive; 3%positive]
  /\ trace s' = trace s ++ [Post 4 key1 thumb; Post 5 key1 thumb2]
  /\ map rcaller (inflight s') = [RetryCallback; RetryCallback].
Proof.
  split; [exists second_limited; reflexivity|].
  repeat split; reflexivity.
Qed.

(** The half of the session hook that holds in every state: an event for
    the user's own stream with a live id records the id and does nothing
    else; one with a cleared id records it and runs [resetRetry]; any other
    event is ignored. *)
Lemma RTC_CONNECTION_VIDEO_exec e s :
  exec (RTC_CONNECTION_VIDEO e) s =
  if String.eqb (Rtc.context e) "stream"
     && String.eqb (Rtc.userId e) (currentUser s)
  then
    if truthy (Rtc.streamId e) then set_streamId (Rtc.streamId e) s
    else exec resetRetry (set_streamId (Rtc.streamId e) s)
  else s.
Proof.
  unfold exec, RTC_CONNECTION_VIDEO, bind at 1, gets.
  destruct (String.eqb (Rtc.context e) "stream"),
    (String.eqb (Rtc.userId e) (currentUser s)); simpl; try reflexivity.
  unfold bind, modify. destruct (truthy (Rtc.streamId e)); reflexivity.
Qed.

(** While the slot tracks the pending timer, a session end cancels it. *)
Lemma session_end_cancels_tracked e s :
  Rtc.context e = "stream"%string -> Rtc.userId e = currentUser s ->
  truthy (Rtc.streamId e) = false ->
  single_slot s ->
  let s' := exec (RTC_CONNECTION_VIDEO e) s in
  timers s' = [] /\ retryUpdate s' = None.
Proof.
  intros Hc Hu Ht Hs. cbv zeta. rewrite RTC_CONNECTION_VIDEO_exec.
  rewrite Hc, Hu, Ht, !String.eqb_refl. simpl.
  split.
  - apply (resetRetry_single_slot (set_streamId (Rtc.streamId e) s)), Hs.
  - apply resetRetry_slot.
Qed.

(** C4. In the state reached by [retry_limited] a retry timer is pending;
    the session-end event for the user's own stream records the cleared id
    but leaves the timer pending, and when the timer runs afterwards the
    deferred post is issued. *)
Theorem session_end_misses_untracked_retry :
  let s := run retry_limited (init me) in
  let s1 := step (EvRtc sessionEnd) s in
  let s2 := run [EvTick 5; EvTimer 2] s1 in
  timers s = [mkTimer 2 10 key1 thumb]
  /\ streamId s1 = Some 0
  /\ timers s1 = timers s
  /\ trace s2 = trace s1 ++ [Post 3 key1 thumb].
Proof. vm_compute. repeat split. Qed.

(** ** The resize *)

Lemma ceil_div_bounds a b :
  0 < b -> a <= ceil_div a b * b < a + b.
Proof.
  intros Hb. unfold ceil_div.
  pose proof (Z.div_mod (a + b - 1) b ltac:(lia)) as E.
  pose proof (Z.mod_pos_bound (a + b - 1) b Hb) as B.
  nia.
Qed.

(** Which side is set, as lines 89-93 choose it. *)
Lemma resize_wide d :
  maxWidth < width d ->
  resize d =
  mkImage maxWidth (ceil_div (height d * maxWidth) (width d)) (pixels d).
Proof.
  intros H. unfold resize. apply Z.gtb_lt in H. rewrite H. reflexivity.
Qed.

Lemma resize_not_wide d :
  width d <= maxWidth ->
  resize d =
  mkImage (ceil_div (width d * maxHeight) (height d)) maxHeight (pixels d).
Proof.
  intros H. unfold resize.
  destruct (width d >? maxWidth) eqn:E; [|reflexivity].
  apply Z.gtb_lt in E. lia.
Qed.

(** X1. The side the resize derives keeps the aspect ratio up to the
    rounding: it is the exact quotient rounded up. *)
Lemma resize_aspect d :
  0 < width d -> 0 < height d ->
  let o := resize d in
  (maxWidth < width d ->
   height d * width o <= height o * width d < height d * width o + width d)
  /\ (width d <= maxWidth ->
      width d * height o <= width o * height d
                         < width d * height o + height d).
Proof.
  intros Hw Hh. cbv zeta. split; intros H.
  - rewrite resize_wide by exact H. simpl.
    apply ceil_div_bounds. exact Hw.
  - rewrite resize_not_wide by exact H. simpl.
    apply ceil_div_bounds. exact Hh.
Qed.

(** X2. Both sides are at most 512 when the side the code fixes is the
    longer one. *)
Lemma resize_bounded d :
  0 < width d -> 0 < height d ->
  (maxWidth < width d /\ height d <= width d)
  \/ (width d <= maxWidth /\ width d <= height d) ->
  width (resize d) <= maxWidth /\ height (resize d) <= maxHeight.
Proof.
  intros Hw Hh [[H1 H2] | [H1 H2]].
  - rewrite resize_wide by exact H1. simpl. split; [lia|].
    pose proof (ceil_div_bounds (height d * maxWidth) (width d) Hw).
    unfold maxWidth, maxHeight in *. nia.
  - rewrite resize_not_wide by exact H1. simpl. split; [|lia].
    pose proof (ceil_div_bounds (width d * maxHeight) (height d) Hh).
    unfold maxWidth, maxHeight in *. nia.
Qed.

(** X3. An image wider than 512 and taller than wide comes out taller
    than 512. *)
Lemma resize_portrait_tall d :
  maxWidth < width d -> width d < height d ->
  maxHeight < height (resize d).
Proof.
  intros H1 H2. rewrite resize_wide by exact H1. simpl.
  pose proof (ceil_div_bounds (height d * maxWidth) (width d) ltac:(unfold maxWidth in *; lia)).
  unfold maxWidth, maxHeight in *. nia.
Qed.

(** C5. A 600 x 1200 image, whose longer side exceeds 512, is resized to
    512 x 1024: the width is set to 512 and the height, derived from the
    aspect ratio without any rounding, exceeds 512. *)
Theorem resize_portrait_exceeds_maxHeight :
  resize (mkImage 600 1200 0) = mkImage 512 1024 0
  /\ maxHeight < height (resize (mkImage 600 1200 0))
  /\ 1200 * width (resize (mkImage 600 1200 0))
     = height (resize (mkImage 600 1200 0)) * 600.
Proof. repeat split; reflexivity. Qed.

Lemma ceil_div_pos a b : 0 < a -> 0 < b -> 0 < ceil_div a b.
Proof.
  intros Ha Hb. pose proof (ceil_div_bounds a b Hb). nia.
Qed.

(** X5. Positive sides stay positive: the canvas is never empty. *)
Theorem resize_positive d :
  0 < width d -> 0 < height d ->
  0 < width (resize d) /\ 0 < height (resize d).
Proof.
  intros Hw Hh. destruct (Z_lt_le_dec maxWidth (width d)) as [H | H].
  - rewrite resize_wide by exact H. simpl. split; [reflexivity|].
    apply ceil_div_pos; unfold maxWidth; lia.
  - rewrite resize_not_wide by exact H. simpl. split; [|reflexivity].
    apply ceil_div_pos; unfold maxHeight; lia.
Qed.

Lemma resize_positive_witness :
  0 < width (resize (mkImage 10000 1 0))
  /\ 0 < height (resize (mkImage 10000 1 0)).
Proof. apply resize_positive; simpl; lia. Defined.



Lemma resize_aspect_witness :
  let d := mkImage 1920 1080 0 in
  let o := resize d in
  (maxWidth < width d ->
   height d * width o <= height o * width d < height d * width o + width d)
  /\ (width d <= maxWidth ->
      width d * height o <= width o * height d
                         < width d * height o + height d).
Proof. apply resize_aspect; simpl; lia. Defined.

Lemma resize_bounded_witness :
  width (resize (mkImage 1920 1080 0)) <= maxWidth
  /\ height (resize (mkImage 1920 1080 0)) <= maxHeight.
Proof.
  apply resize_bounded; simpl; unfold maxWidth; try lia.
Defined.

Lemma resize_portrait_tall_witness :
  maxHeight < height (resize (mkImage 1080 1920 0)).
Proof. apply resize_portrait_tall; simpl; unfold maxWidth; lia. Defined.

(** ** Steps, written out *)

Lemma step_answer_ok r q s :
  find_request r (inflight s) = Some q ->
  step (EvResponse r Ok) s =
  match rcaller q with
  | Detached => answered q s
  | RetryCallback => set_retryUpdate None (answered q s)
  end.
Proof.
  intros H. simpl. rewrite H. unfold_ops. destruct (rcaller q); reflexivity.
Qed.

Lemma step_answer_429 r q e s :
  find_request r (inflight s) = Some q -> status e = 429 ->
  step (EvResponse r (Fail e)) s =
  mkState
    match rcaller q with
    | Detached => Some (nextTimer s)
    | RetryCallback => None
    end
    (streamId s) (disableStreamPreviews s) (currentUser s)
    (timers (exec resetRetry s)
       ++ [mkTimer (nextTimer s) (now s + Z.max 0 (retry_after (body e)))
                   (rkey q) (rimg q)])
    (Pos.succ (nextTimer s)) (now s)
    (filter (fun x => negb (Pos.eqb (rid x) (rid q))) (inflight s))
    (nextRequest s) (trace s).
Proof.
  intros H E. simpl. rewrite H. unfold exec, deliver, postPreview_resume.
  rewrite E. destruct s as [ru si d cu ti nt nw inf nr tr].
  unfold_ops. simpl. destruct ru, (rcaller q); reflexivity.
Qed.

Lemma step_answer_other r q e s :
  find_request r (inflight s) = Some q -> status e <> 429 ->
  step (EvResponse r (Fail e)) s = observe (Unhandled e) (answered q s).
Proof.
  intros H E. simpl. rewrite H. unfold exec.
  rewrite deliver_other_status by exact E. reflexivity.
Qed.

Lemma step_timer_due t x s :
  find_timer t (timers s) = Some x -> due x <= now s ->
  step (EvTimer t) s =
  mkState (retryUpdate s) (streamId s) (disableStreamPreviews s)
    (currentUser s)
    (filter (fun y => negb (Pos.eqb (tid y) (tid x))) (timers s))
    (nextTimer s) (now s)
    (inflight s ++ [mkRequest (nextRequest s) (tkey x) (timg x) RetryCallback])
    (Pos.succ (nextRequest s))
    (trace s ++ [Post (nextRequest s) (tkey x) (timg x)]).
Proof.
  intros H D. simpl. rewrite H. apply Z.leb_le in D. rewrite D.
  destruct s. reflexivity.
Qed.

Lemma find_request_some r q l :
  find_request r l = Some q -> In q l /\ rid q = r.
Proof.
  intros H. apply find_some in H. destruct H as [H1 H2].
  apply Pos.eqb_eq in H2. auto.
Qed.

Lemma find_timer_some t x l :
  find_timer t l = Some x -> In x l /\ tid x = t.
Proof.
  intros H. apply find_some in H. destruct H as [H1 H2].
  apply Pos.eqb_eq in H2. auto.
Qed.

(** ** Handles and request ids *)

Lemma NoDup_map_filter {A B} (f : A -> B) (p : A -> bool) l :
  NoDup (map f l) -> NoDup (map f (filter p l)).
Proof.
  induction l as [|a l IH]; simpl; intros H; [constructor|].
  inversion H as [|? ? Hn Hd]; subst.
  destruct (p a); simpl; [constructor|]; auto.
  intros Hin. apply Hn. apply in_map_iff in Hin.
  destruct Hin as [y [E Hy]]. apply filter_In in Hy.
  apply in_map_iff. exists y. tauto.
Qed.

Lemma NoDup_map_snoc {A B} (f : A -> B) l x :
  NoDup (map f l) -> ~ In (f x) (map f l) -> NoDup (map f (l ++ [x])).
Proof.
  intros Hd Hn. rewrite map_app. simpl.
  apply NoDup_app; [exact Hd | constructor; [intros [] | constructor] |].
  intros y Hy [<- | []]. exact (Hn Hy).
Qed.

Lemma below_not_in {A} (f : A -> positive) l n :
  (forall x, In x l -> (f x < n)%positive) -> ~ In n (map f l).
Proof.
  intros H Hin. apply in_map_iff in Hin. destruct Hin as [x [E Hx]].
  specialize (H x Hx). lia.
Qed.

Lemma fresh_init u : fresh (init u).
Proof.
  unfold fresh, init. simpl.
  repeat split; try constructor; try tauto; discriminate.
Qed.

Lemma fresh_resetRetry s : fresh s -> fresh (exec resetRetry s).
Proof.
  intros (H1 & H2 & H3 & H4 & H5).
  unfold fresh. rewrite resetRetry_slot, resetRetry_timers.
  assert (E : nextTimer (exec resetRetry s) = nextTimer s
              /\ inflight (exec resetRetry s) = inflight s
              /\ nextRequest (exec resetRetry s) = nextRequest s).
  { unfold_ops. destruct (retryUpdate s); simpl; auto. }
  destruct E as (-> & -> & ->).
  repeat split; auto; try discriminate.
  - intros x Hx. apply H1. destruct (retryUpdate s); [|exact Hx].
    apply filter_In in Hx. tauto.
  - destruct (retryUpdate s); [apply NoDup_map_filter|]; exact H4.
Qed.

Lemma fresh_step ev s : fresh s -> fresh (step ev s).
Proof.
  intros Hf. pose proof Hf as (H1 & H2 & H3 & H4 & H5).
  destruct ev as [k d|r resp|t|d|e].
  - simpl. rewrite updatePreview_exec. unfold fresh. simpl.
    repeat split; auto.
    + intros q Hq. apply in_app_iff in Hq. destruct Hq as [Hq | [<- | []]].
      * specialize (H2 q Hq). lia.
      * simpl. lia.
    + apply NoDup_map_snoc; [exact H5|]. simpl. apply below_not_in, H2.
  - destruct (find_request r (inflight s)) as [q|] eqn:F;
      [|simpl; rewrite F; exact Hf].
    assert (Hin : forall y,
               In y (filter (fun x => negb (Pos.eqb (rid x) (rid q)))
                            (inflight s)) ->
               (rid y < nextRequest s)%positive).
    { intros y Hy. apply filter_In in Hy. apply H2. tauto. }
    destruct resp as [|e].
    + rewrite (step_answer_ok r q s F). unfold fresh.
      destruct (rcaller q); simpl; repeat split; auto;
        try discriminate; apply NoDup_map_filter; exact H5.
    + destruct (Z.eq_dec (status e) 429) as [E | E].
      * rewrite (step_answer_429 r q e s F E).
        pose proof (fresh_resetRetry s Hf) as (R1 & _ & _ & R4 & _).
        assert (N : nextTimer (exec resetRetry s) = nextTimer s).
        { unfold_ops. destruct (retryUpdate s); reflexivity. }
        rewrite N in R1.
        unfold fresh. simpl. repeat split; auto.
        -- intros x Hx. apply in_app_iff in Hx.
           destruct Hx as [Hx | [<- | []]].
           ++ specialize (R1 x Hx). lia.
           ++ simpl. lia.
        -- intros t0 Ht. destruct (rcaller q); [|discriminate].
           injection Ht as <-. lia.
        -- apply NoDup_map_snoc; [exact R4|]. simpl.
           apply below_not_in, R1.
        -- apply NoDup_map_filter; exact H5.
      * rewrite (step_answer_other r q e s F E). unfold fresh. simpl.
        repeat split; auto. apply NoDup_map_filter; exact H5.
  - destruct (find_timer t (timers s)) as [x|] eqn:F;
      [|simpl; rewrite F; exact Hf].
    destruct (Z_le_gt_dec (due x) (now s)) as [D | D].
    + rewrite (step_timer_due t x s F D). unfold fresh. simpl.
      repeat split; auto.
      * intros y Hy. apply filter_In in Hy. apply H1. tauto.
      * intros q Hq. apply in_app_iff in Hq.
        destruct Hq as [Hq | [<- | []]].
        -- specialize (H2 q Hq). lia.
        -- simpl. lia.
      * apply NoDup_map_filter; exact H4.
      * apply NoDup_map_snoc; [exact H5|]. simpl. apply below_not_in, H2.
    + simpl. rewrite F.
      replace (due x <=? now s) with false; [exact Hf|].
      symmetry. apply Z.leb_gt. lia.
  - exact Hf.
  - simpl. rewrite RTC_CONNECTION_VIDEO_exec.
    destruct (_ && _); [|exact Hf].
    destruct (truthy (Rtc.streamId e)); [exact Hf|].
    apply (fresh_resetRetry (set_streamId (Rtc.streamId e) s)). exact Hf.
Qed.

Lemma fresh_run evs s : fresh s -> fresh (run evs s).
Proof.
  revert s. induction evs as [|ev evs IH]; intros s H; [exact H|].
  simpl. apply IH, fresh_step, H.
Qed.

(** In every state reached from the start, the pending timers have
    pairwise distinct handles below the host's next handle, the unanswered
    posts have pairwise distinct ids below the next id, and a handle kept
    in the slot was handed out before: an answer or a timer event names at
    most one continuation. *)
Theorem reachable_fresh u s : reachable u s -> fresh s.
Proof.
  intros [evs <-]. apply fresh_run, fresh_init.
Qed.

Lemma reachable_fresh_witness : fresh (run second_limited (init me)).
Proof.
  apply (reachable_fresh me). exists second_limited. reflexivity.
Defined.

(** ** A retry from start to end *)






(** ** Answers to an update *)

(** X8. While the slot tracks the pending timer, a 429 answer to an update
    replaces whatever retry was pending by one retry for the answered
    post's own key and image, and reports nothing. *)
Theorem last_limited_update_wins r q e s :
  single_slot s ->
  find_request r (inflight s) = Some q -> rcaller q = Detached ->
  status e = 429 ->
  let s' := step (EvResponse r (Fail e)) s in
  timers s' =
    [mkTimer (nextTimer s) (now s + Z.max 0 (retry_after (body e)))
             (rkey q) (rimg q)]
  /\ retryUpdate s' = Some (nextTimer s)
  /\ trace s' = trace s.
Proof.
  intros Hs F C E. cbv zeta. rewrite (step_answer_429 r q e s F E).
  rewrite (resetRetry_single_slot s Hs), C. simpl. auto.
Qed.

Lemma last_limited_update_wins_witness :
  let s := run [EvUpdate key1 frame; EvUpdate key1 frame2;
                EvResponse 1 (tooMany 5)] (init me) in
  let s' := step (EvResponse 2 (tooMany 3)) s in
  timers s = [mkTimer 1 5 key1 thumb]
  /\ timers s' = [mkTimer 2 3 key1 thumb2].
Proof.
  cbv zeta. split; [reflexivity|].
  apply (last_limited_update_wins 2 (mkRequest 2 key1 thumb2 Detached)
           (mkError 429 (mkBody 3))); try reflexivity.
  right. exists (mkTimer 1 5 key1 thumb). split; reflexivity.
Defined.

(** X9. A failure other than 429 is caught by nobody: the host reports the
    rejection, and besides that the answer changes nothing.  The local
    preview stays dispatched, the setting stays as the update left it, no
    retry is scheduled or cancelled. *)
Theorem remote_failure_is_unhandled r q e s :
  find_request r (inflight s) = Some q -> status e <> 429 ->
  let s' := step (EvResponse r (Fail e)) s in
  trace s' = trace s ++ [Unhandled e]
  /\ timers s' = timers s
  /\ retryUpdate s' = retryUpdate s
  /\ disableStreamPreviews s' = disableStreamPreviews s
  /\ find_request r (inflight s') = None.
Proof.
  intros F E. cbv zeta. rewrite (step_answer_other r q e s F E). simpl.
  repeat split.
  destruct (find_request_some r q _ F) as [_ <-].
  unfold find_request.
  destruct (find _ (filter _ _)) as [y|] eqn:Fy; [|reflexivity].
  apply find_some in Fy. destruct Fy as [Hy1 Hy2].
  apply filter_In in Hy1. destruct Hy1 as [_ Hy1].
  rewrite Hy2 in Hy1. discriminate.
Qed.

Lemma remote_failure_is_unhandled_witness :
  let e := mkError 500 (mkBody 0) in
  let s := run [EvUpdate key1 frame] (init me) in
  let s' := step (EvResponse 1 (Fail e)) s in
  trace s' = trace s ++ [Unhandled e]
  /\ timers s' = timers s
  /\ retryUpdate s' = retryUpdate s
  /\ disableStreamPreviews s' = disableStreamPreviews s
  /\ find_request 1 (inflight s') = None.
Proof.
  apply (remote_failure_is_unhandled 1 (mkRequest 1 key1 thumb Detached)).
  - reflexivity.
  - simpl. lia.
Defined.

(** ** Nothing happens by itself *)

Lemma resetRetry_frame s :
  trace (exec resetRetry s) = trace s
  /\ inflight (exec resetRetry s) = inflight s.
Proof. unfold_ops. destruct (retryUpdate s); simpl; auto. Qed.

Lemma idle_step ev s :
  idle s -> is_update ev = false ->
  idle (step ev s) /\ trace (step ev s) = trace s.
Proof.
  intros [Ht Hi] Hu. destruct ev as [k d|r resp|t|d|e]; simpl.
  - discriminate.
  - rewrite Hi. simpl. unfold idle. auto.
  - rewrite Ht. simpl. unfold idle. auto.
  - unfold idle. simpl. auto.
  - rewrite RTC_CONNECTION_VIDEO_exec.
    destruct (_ && _); [|unfold idle; auto].
    destruct (truthy (Rtc.streamId e)); [unfold idle; simpl; auto|].
    destruct (resetRetry_frame (set_streamId (Rtc.streamId e) s)) as [E1 E2].
    unfold idle. rewrite E1, E2, resetRetry_timers. simpl. rewrite Ht.
    destruct (retryUpdate s); auto.
Qed.

Lemma idle_run evs s :
  idle s -> forallb (fun ev => negb (is_update ev)) evs = true ->
  idle (run evs s) /\ trace (run evs s) = trace s.
Proof.
  revert s. induction evs as [|ev evs IH]; intros s Hs Hu; [auto|].
  simpl in Hu. apply andb_true_iff in Hu. destruct Hu as [H1 H2].
  apply negb_true_iff in H1.
  destruct (idle_step ev s Hs H1) as [Hs' Ht'].
  simpl. destruct (IH (step ev s) Hs' H2) as [Hs'' Ht''].
  split; [exact Hs''|]. rewrite Ht''. exact Ht'.
Qed.

(** X10. Until the first update nothing is dispatched, posted or scheduled and
    the setting is not read, whatever answers, timer events, clock ticks
    and connection events arrive. *)
Theorem nothing_before_first_update u evs :
  forallb (fun ev => negb (is_update ev)) evs = true ->
  trace (run evs (init u)) = [] /\ idle (run evs (init u)).
Proof.
  intros H. destruct (idle_run evs (init u)) as [H1 H2]; auto.
  split; reflexivity.
Qed.

Lemma nothing_before_first_update_witness :
  trace (run [EvRtc sessionEnd; EvTimer 1; EvResponse 1 Ok; EvTick 9]
             (init me)) = [].
Proof.
  apply (nothing_before_first_update me
           [EvRtc sessionEnd; EvTimer 1; EvResponse 1 Ok; EvTick 9]).
  reflexivity.
Defined.

(** X11. When the slot tracks the pending timer and no post is unanswered,
    the end of the user's own stream cancels the retry for good: whatever
    happens next, short of a new update, nothing more is observed and no
    timer is pending. *)
Theorem session_end_is_final e evs s :
  Rtc.context e = "stream"%string -> Rtc.userId e = currentUser s ->
  truthy (Rtc.streamId e) = false ->
  single_slot s -> inflight s = [] ->
  forallb (fun ev => negb (is_update ev)) evs = true ->
  let s' := run (EvRtc e :: evs) s in
  trace s' = trace s /\ timers s' = [] /\ inflight s' = []
  /\ streamId (step (EvRtc e) s) = Rtc.streamId e.
Proof.
  intros Hc Hu Ht Hs Hi Hev. cbv zeta.
  destruct (session_end_cancels_tracked e s Hc Hu Ht Hs) as [T _].
  cbv zeta in T. change (exec (RTC_CONNECTION_VIDEO e) s)
    with (step (EvRtc e) s) in T.
  assert (E : step (EvRtc e) s
              = exec resetRetry (set_streamId (Rtc.streamId e) s)).
  { simpl. rewrite RTC_CONNECTION_VIDEO_exec, Hc, Hu, Ht, !String.eqb_refl.
    reflexivity. }
  destruct (resetRetry_frame (set_streamId (Rtc.streamId e) s)) as [F1 F2].
  assert (I : idle (step (EvRtc e) s)).
  { split; [exact T|]. rewrite E, F2. exact Hi. }
  destruct (idle_run evs _ I Hev) as [[I1 I2] I3].
  change (run (EvRtc e :: evs) s) with (run evs (step (EvRtc e) s)).
  rewrite I1, I2, I3. repeat split.
  - rewrite E, F1. reflexivity.
  - rewrite E. unfold_ops.
    destruct (retryUpdate (set_streamId (Rtc.streamId e) s)); reflexivity.
Qed.

Lemma session_end_is_final_witness :
  let s := run [EvUpdate key1 frame; EvResponse 1 (tooMany 5)] (init me) in
  let s' := run [EvRtc sessionEnd; EvTick 5; EvTimer 1] s in
  timers s = [mkTimer 1 5 key1 thumb]
  /\ trace s' = trace s /\ timers s' = [].
Proof.
  cbv zeta. split; [reflexivity|].
  destruct (session_end_is_final sessionEnd [EvTick 5; EvTimer 1]
              (run [EvUpdate key1 frame; EvResponse 1 (tooMany 5)] (init me)))
    as (H1 & H2 & _); try reflexivity.
  - right. exists (mkTimer 1 5 key1 thumb). split; reflexivity.
  - split; [exact H1 | exact H2].
Defined.

(** ** Local before remote, in every run *)

Lemma posts_follow_dispatch_snoc tr o :
  posts_follow_dispatch tr ->
  (forall r k u, o = Post r k u -> In (Dispatch k u) tr) ->
  posts_follow_dispatch (tr ++ [o]).
Proof.
  intros H Ho pre r k u rest E.
  destruct (exists_last (l := Post r k u :: rest)) as [l [z El]];
    [discriminate|].
  rewrite El, app_assoc in E. apply app_inj_tail in E. destruct E as [E1 E2].
  destruct l as [|y l].
  - simpl in El. injection El as El1 El2. subst z.
    rewrite app_nil_r in E1. subst pre. apply (Ho r k u). auto.
  - simpl in El. injection El as El1 El2. subst y.
    apply (H pre r k u l). exact E1.
Qed.

Lemma posts_follow_dispatch_quiet tr o :
  posts_follow_dispatch tr ->
  (forall r k u, o <> Post r k u) ->
  posts_follow_dispatch (tr ++ [o]).
Proof.
  intros H Ho. apply posts_follow_dispatch_snoc; [exact H|].
  intros r k u E. destruct (Ho r k u E).
Qed.

Lemma local_first_resetRetry s :
  pending_dispatched s -> pending_dispatched (exec resetRetry s).
Proof.
  intros [H1 H2]. destruct (resetRetry_frame s) as [F1 F2].
  unfold pending_dispatched. rewrite F1, F2, resetRetry_timers.
  split; [exact H1|]. intros x Hx. apply H2.
  destruct (retryUpdate s); [|exact Hx]. apply filter_In in Hx. tauto.
Qed.

Lemma local_first_step ev s : local_first s -> local_first (step ev s).
Proof.
  intros [Hp [H1 H2]]. destruct ev as [k d|r resp|t|d|e].
  - simpl. rewrite updatePreview_exec. cbv zeta.
    set (url := toDataURL (resize d)).
    assert (P3 : posts_follow_dispatch
                   (trace s ++ [Dispatch k url; Post (nextRequest s) k url;
                                GetSetting])).
    { change (trace s ++ [Dispatch k url; Post (nextRequest s) k url;
                          GetSetting])
        with (trace s ++ [Dispatch k url] ++ [Post (nextRequest s) k url]
                ++ [GetSetting]).
      rewrite !app_assoc.
      apply posts_follow_dispatch_quiet; [|discriminate].
      apply posts_follow_dispatch_snoc.
      - apply posts_follow_dispatch_quiet; [exact Hp | discriminate].
      - intros r0 k0 u0 E. injection E as _ <- <-.
        apply in_app_iff. right. left. reflexivity. }
    split; simpl.
    + destruct (disableStreamPreviews s).
      * exact P3.
      * change (trace s ++ [Dispatch k url; Post (nextRequest s) k url;
                            GetSetting; UpdateSetting true])
          with (trace s ++ [Dispatch k url; Post (nextRequest s) k url;
                            GetSetting] ++ [UpdateSetting true]).
        rewrite app_assoc.
        apply posts_follow_dispatch_quiet; [exact P3 | discriminate].
    + split; simpl.
      * intros q Hq. apply in_app_iff in Hq. apply in_app_iff.
        destruct Hq as [Hq | [<- | []]]; [left; apply H1, Hq|].
        right. left. reflexivity.
      * intros x Hx. apply in_app_iff. left. apply H2, Hx.
  - destruct (find_request r (inflight s)) as [q|] eqn:F;
      [|simpl; rewrite F; split; [exact Hp | split; assumption]].
    destruct (find_request_some r q _ F) as [Hq _].
    assert (Hin : forall y,
               In y (filter (fun x => negb (Pos.eqb (rid x) (rid q)))
                            (inflight s)) ->
               In (Dispatch (rkey y) (rimg y)) (trace s)).
    { intros y Hy. apply filter_In in Hy. apply H1. tauto. }
    destruct resp as [|e].
    + rewrite (step_answer_ok r q s F).
      destruct (rcaller q); (split; [exact Hp | split; simpl; assumption]).
    + destruct (Z.eq_dec (status e) 429) as [E | E].
      * rewrite (step_answer_429 r q e s F E).
        destruct (local_first_resetRetry s (conj H1 H2)) as [_ R2].
        destruct (resetRetry_frame s) as [F1 _]. rewrite F1 in R2.
        split; [exact Hp|]. split; simpl; [exact Hin|].
        intros x Hx. apply in_app_iff in Hx.
        destruct Hx as [Hx | [<- | []]]; [apply R2, Hx | apply H1, Hq].
      * rewrite (step_answer_other r q e s F E). split; simpl.
        -- apply posts_follow_dispatch_quiet; [exact Hp | discriminate].
        -- split; simpl.
           ++ intros y Hy. apply in_app_iff. left. apply Hin, Hy.
           ++ intros x Hx. apply in_app_iff. left. apply H2, Hx.
  - destruct (find_timer t (timers s)) as [x|] eqn:F;
      [|simpl; rewrite F; split; [exact Hp | split; assumption]].
    destruct (find_timer_some t x _ F) as [Hx _].
    destruct (Z_le_gt_dec (due x) (now s)) as [D | D].
    + rewrite (step_timer_due t x s F D). split; simpl.
      * apply posts_follow_dispatch_snoc; [exact Hp|].
        intros r0 k0 u0 E. injection E as _ <- <-. apply H2, Hx.
      * split; simpl.
        -- intros q Hq. apply in_app_iff in Hq. apply in_app_iff. left.
           destruct Hq as [Hq | [<- | []]]; [apply H1, Hq | apply H2, Hx].
        -- intros y Hy. apply filter_In in Hy. apply in_app_iff. left.
           apply H2. tauto.
    + simpl. rewrite F.
      replace (due x <=? now s) with false
        by (symmetry; apply Z.leb_gt; lia).
      split; [exact Hp | split; assumption].
  - split; [exact Hp | split; assumption].
  - simpl. rewrite RTC_CONNECTION_VIDEO_exec.
    destruct (_ && _); [|split; [exact Hp | split; assumption]].
    destruct (truthy (Rtc.streamId e));
      [split; [exact Hp | split; assumption]|].
    destruct (resetRetry_frame (set_streamId (Rtc.streamId e) s)) as [F1 _].
    split; [unfold local_first; rewrite F1; exact Hp|].
    apply (local_first_resetRetry (set_streamId (Rtc.streamId e) s)).
    split; assumption.
Qed.

Lemma local_first_run evs s : local_first s -> local_first (run evs s).
Proof.
  revert s. induction evs as [|ev evs IH]; intros s H; [exact H|].
  simpl. apply IH, local_first_step, H.
Qed.

(** X12. In every run from the start, retries included, each post comes
    after a dispatch of the very same key and image: nothing is sent to
    the remote that was not first published locally. *)
Theorem posted_was_dispatched u evs pre r k img rest :
  trace (run evs (init u)) = pre ++ Post r k img :: rest ->
  In (Dispatch k img) pre.
Proof.
  assert (H : local_first (init u)).
  { split; [|split; intros ? []].
    intros p r0 k0 u0 rs E. destruct p; discriminate. }
  destruct (local_first_run evs (init u) H) as [Hp _].
  apply Hp.
Qed.

Lemma posted_was_dispatched_witness :
  In (Dispatch key1 thumb)
     [Dispatch key1 thumb; Post 1 key1 thumb; GetSetting; UpdateSetting true].
Proof.
  apply (posted_was_dispatched me retry_limited
           [Dispatch key1 thumb; Post 1 key1 thumb; GetSetting;
            UpdateSetting true] 2 key1 thumb []).
  reflexivity.
Defined.

Lemma step_dispatches ev s :
  List.length (filter is_dispatch (trace (step ev s))) =
  (List.length (filter is_dispatch (trace s))
   + if is_update ev then 1 else 0)%nat.
Proof.
  destruct ev as [k d|r resp|t|d|e]; simpl.
  - rewrite updatePreview_exec. simpl.
    rewrite filter_app, length_app. simpl.
    destruct (disableStreamPreviews s); reflexivity.
  - rewrite Nat.add_0_r.
    destruct (find_request r (inflight s)) as [q|] eqn:F; [|reflexivity].
    destruct resp as [|e].
    + pose proof (step_answer_ok r q s F) as E. simpl in E. rewrite F in E.
      rewrite E. destruct (rcaller q); reflexivity.
    + destruct (Z.eq_dec (status e) 429) as [E9 | E9].
      * pose proof (step_answer_429 r q e s F E9) as E. simpl in E.
        rewrite F in E. rewrite E. reflexivity.
      * pose proof (step_answer_other r q e s F E9) as E. simpl in E.
        rewrite F in E. rewrite E. simpl.
        rewrite filter_app, length_app. simpl. lia.
  - rewrite Nat.add_0_r.
    destruct (find_timer t (timers s)) as [x|] eqn:F; [|reflexivity].
    destruct (due x <=? now s) eqn:D; [|reflexivity].
    unfold_ops. simpl. rewrite filter_app, length_app. simpl. lia.
  - lia.
  - rewrite Nat.add_0_r, RTC_CONNECTION_VIDEO_exec.
    destruct (_ && _); [|reflexivity].
    destruct (truthy (Rtc.streamId e)); [reflexivity|].
    destruct (resetRetry_frame (set_streamId (Rtc.streamId e) s)) as [F1 _].
    rewrite F1. reflexivity.
Qed.

(** X13. The number of dispatches observed in a run is the number of
    updates: answers, retries and connection events never dispatch. *)
Theorem one_dispatch_per_update evs s :
  List.length (filter is_dispatch (trace (run evs s))) =
  (List.length (filter is_dispatch (trace s))
   + List.length (filter is_update evs))%nat.
Proof.
  revert s. induction evs as [|ev evs IH]; intros s; simpl; [lia|].
  rewrite IH, step_dispatches. destruct (is_update ev); simpl; lia.
Qed.

(** ** Capturing a frame *)

Lemma RTC_CONNECTION_VIDEO_streamId e s :
  Rtc.context e = "stream"%string -> Rtc.userId e = currentUser s ->
  streamId (exec (RTC_CONNECTION_VIDEO e) s) = Rtc.streamId e.
Proof.
  intros Hc Hu. rewrite RTC_CONNECTION_VIDEO_exec, Hc, Hu, !String.eqb_refl.
  simpl. destruct (truthy (Rtc.streamId e)); [reflexivity|].
  unfold_ops. destruct (retryUpdate (set_streamId (Rtc.streamId e) s));
    reflexivity.
Qed.

(** X14. [uploadScreenPreview] asks the voice module for a frame of the stream
    id that the last connection event of the user's own stream carried,
    cleared ids included, and not for anything read from the stream the
    menu entry belongs to.  With a frame it runs the update for that
    stream's key; without one it rejects and nothing is published. *)
Theorem capture_uses_recorded_stream_id
        (Stream : Type) (streamToStreamKey : option Stream -> option StreamKey)
        (active : option Stream) (frameOf : option Z -> option ImageData)
        (e : Rtc.Args) (st : Stream) (k : StreamKey) (s : State) :
  Rtc.context e = "stream"%string -> Rtc.userId e = currentUser s ->
  streamToStreamKey (Some st) = Some k ->
  let s1 := exec (RTC_CONNECTION_VIDEO e) s in
  uploadScreenPreview Stream streamToStreamKey active frameOf (Some st) s1 =
  match frameOf (Rtc.streamId e) with
  | Some img => (true, exec (updatePreview k img) s1)
  | None => (false, s1)
  end.
Proof.
  intros Hc Hu Hk. cbv zeta. unfold uploadScreenPreview. rewrite Hk.
  unfold bind at 1, gets.
  rewrite (RTC_CONNECTION_VIDEO_streamId e s Hc Hu).
  destruct (frameOf (Rtc.streamId e)) as [img|]; [|reflexivity].
  unfold bind, ret, exec.
  destruct (updatePreview k img _). reflexivity.
Qed.

Lemma capture_uses_recorded_stream_id_witness :
  let frameOf := fun i : option Z =>
                   match i with
                   | Some 7 => Some frame
                   | _ => None
                   end in
  let toKey := fun _ : option unit => Some key1 in
  let live := Rtc.mk "stream" me (Some 7) in
  trace (snd (uploadScreenPreview unit toKey None frameOf (Some tt)
                (exec (RTC_CONNECTION_VIDEO live) (init me))))
  = [Dispatch key1 thumb; Post 1 key1 thumb; GetSetting; UpdateSetting true]
  /\ uploadScreenPreview unit toKey None frameOf (Some tt)
       (exec (RTC_CONNECTION_VIDEO sessionEnd) (init me))
     = (false, exec (RTC_CONNECTION_VIDEO sessionEnd) (init me)).
Proof.
  cbv zeta. split.
  - rewrite (capture_uses_recorded_stream_id unit (fun _ => Some key1) None
               _ (Rtc.mk "stream" me (Some 7)) tt key1 (init me)
               eq_refl eq_refl eq_refl).
    reflexivity.
  - rewrite (capture_uses_recorded_stream_id unit (fun _ => Some key1) None
               _ sessionEnd tt key1 (init me) eq_refl eq_refl eq_refl).
    reflexivity.
Defined.

(** ** The context menus *)

Lemma app_cons_neq {A} (l r : list A) x : l ++ x :: r <> l.
Proof.
  intros E. apply (f_equal (@List.length A)) in E.
  rewrite length_app in E. simpl in E. lia.
Qed.

Section MenuFacts.
Variable Stream : Type.
Variable ownerId : Stream -> string.
Variable streamToStreamKey : option Stream -> option StreamKey.
Variable active : option Stream.
Variable frameOf : option Z -> option ImageData.


Lemma streamContext_result children st s :
  streamContext Stream ownerId children st s =
  if String.eqb (ownerId st) (currentUser s)
  then (children ++ streamItems Stream (disableStreamPreviews s) st,
        observe GetSetting s)
  else (children, s).
Proof.
  unfold streamContext, bind, gets, getSetting, ret.
  destruct (String.eqb (ownerId st) (currentUser s)); reflexivity.
Qed.

(** X15. For a stream of somebody else [streamContext] leaves the menu as it
    is and does not even read the setting. *)
Theorem streamContext_foreign_stream children st s :
  ownerId st <> currentUser s ->
  streamContext Stream ownerId children st s = (children, s).
Proof.
  intros H. rewrite streamContext_result.
  apply String.eqb_neq in H. rewrite H. reflexivity.
Qed.


(** X17. The checkbox of a freshly built menu shows the negation of the
    setting, and a click on it sets the setting to what it shows: the
    setting is flipped, and the menu built next shows the opposite.  The
    entry holds the value computed when the menu was built, so a second
    click on the same entry changes nothing more. *)
Theorem checkbox_flips_setting st file s :
  ownerId st = currentUser s ->
  let r1 := streamContext Stream ownerId [] st s in
  let a := ActUpdateSetting (negb (disableStreamPreviews s)) in
  let click := runAction Stream streamToStreamKey active frameOf a file in
  let s2 := exec click (snd r1) in
  nth_error (fst r1) 1 =
    Some (MenuCheckboxItem (negb (disableStreamPreviews s))
            "Preview Auto-Update" "preview-auto-update" a)
  /\ disableStreamPreviews s2 = negb (disableStreamPreviews s)
  /\ disableStreamPreviews (exec click s2) = negb (disableStreamPreviews s)
  /\ nth_error (fst (streamContext Stream ownerId [] st s2)) 1 =
       Some (MenuCheckboxItem (disableStreamPreviews s)
               "Preview Auto-Update" "preview-auto-update"
               (ActUpdateSetting (disableStreamPreviews s))).
Proof.
  intros H. cbv zeta. rewrite !streamContext_result.
  assert (E : currentUser
                (exec (runAction Stream streamToStreamKey active frameOf
                         (ActUpdateSetting (negb (disableStreamPreviews s)))
                         file)
                      (observe GetSetting s)) = currentUser s)
    by reflexivity.
  rewrite H, String.eqb_refl. simpl snd. rewrite E, String.eqb_refl.
  simpl. rewrite negb_involutive. auto.
Qed.

(** X18. After an update the menu of the user's own stream shows
    "Preview Auto-Update" unchecked, and a click on it turns the automatic
    previews on again. *)
Theorem menu_after_update k d st file s :
  ownerId st = currentUser s ->
  let s1 := exec (updatePreview k d) s in
  let a := ActUpdateSetting false in
  nth_error (fst (streamContext Stream ownerId [] st s1)) 1 =
    Some (MenuCheckboxItem false "Preview Auto-Update"
            "preview-auto-update" a)
  /\ disableStreamPreviews
       (exec (runAction Stream streamToStreamKey active frameOf a file)
             (snd (streamContext Stream ownerId [] st s1))) = false.
Proof.
  intros H. cbv zeta. rewrite streamContext_result, updatePreview_exec.
  cbv zeta. simpl. rewrite H, String.eqb_refl. simpl. auto.
Qed.

(** X19. [streamsContext] looks at the first active stream only: entries are
    added exactly when there is one and it is the user's own. *)
Theorem streamsContext_adds_iff children streams s :
  fst (streamsContext Stream ownerId children streams s) <> children
  <-> exists st rest, streams = st :: rest /\ ownerId st = currentUser s.
Proof.
  destruct streams as [|x rest]; simpl.
  - split; [intros H; destruct (H eq_refl) | intros (? & ? & E & _)].
    discriminate.
  - rewrite streamContext_result.
    destruct (String.eqb_spec (ownerId x) (currentUser s)) as [E | E]; simpl.
    + split; [exists x, rest; auto | intros _; apply app_cons_neq].
    + split; [intros H; destruct (H eq_refl)|].
      intros (y & l & Ey & Ho). injection Ey as <- _. contradiction.
Qed.

(** X20. [userContext] adds entries exactly when the menu is the current
    user's own, the store knows an active stream, and that stream is the
    user's. *)
Theorem userContext_adds_iff children user s :
  fst (userContext Stream ownerId active children user s) <> children
  <-> User.id user = currentUser s
      /\ exists st, active = Some st /\ ownerId st = currentUser s.
Proof.
  unfold userContext, bind, gets.
  destruct (String.eqb_spec (User.id user) (currentUser s)) as [U | U]; simpl.
  - destruct active as [x|]; simpl.
    + rewrite streamContext_result.
      destruct (String.eqb_spec (ownerId x) (currentUser s)) as [E | E];
        simpl.
      * split; [intros _; split; [exact U | exists x; auto]|].
        intros _. apply app_cons_neq.
      * split; [intros H; destruct (H eq_refl)|].
        intros (_ & y & Ey & Ho). injection Ey as <-. contradiction.
    + split; [intros H; destruct (H eq_refl)|].
      intros (_ & y & Ey & _). discriminate.
  - split; [intros H; destruct (H eq_refl) | intros (E & _)].
    contradiction.
Qed.
End MenuFacts.

Lemma streamContext_foreign_stream_witness :
  streamContext string (fun x => x) [MenuSeparator] "7"%string (init me)
  = ([MenuSeparator], init me).
Proof.
  apply (streamContext_foreign_stream string (fun x => x)). discriminate.
Defined.

Lemma checkbox_flips_setting_witness :
  let s := init me in
  let a := @ActUpdateSetting string true in
  let none := fun _ : option string => @None StreamKey in
  let noframe := fun _ : option Z => @None ImageData in
  let s2 := exec (runAction string none None noframe a None)
                 (snd (streamContext string (fun x => x) [] me s)) in
  disableStreamPreviews s2 = true
  /\ nth_error (fst (streamContext string (fun x => x) [] me s2)) 1 =
       Some (MenuCheckboxItem false "Preview Auto-Update"
               "preview-auto-update" (ActUpdateSetting false)).
Proof.
  cbv zeta.
  destruct (checkbox_flips_setting string (fun x => x)
              (fun _ => None) None (fun _ => None) me None (init me) eq_refl)
    as (_ & H2 & _ & H4).
  split; [exact H2 | exact H4].
Defined.

Lemma menu_after_update_witness :
  nth_error
    (fst (streamContext string (fun x => x) [] me
            (exec (updatePreview key1 frame) (init me)))) 1 =
  Some (MenuCheckboxItem false "Preview Auto-Update" "preview-auto-update"
          (ActUpdateSetting false)).
Proof.
  apply (menu_after_update string (fun x => x) (fun _ => None) None
           (fun _ => None) key1 frame me None (init me) eq_refl).
Defined.

Lemma single_slot_run_witness :
  single_slot
    (run [EvUpdate key1 frame; EvUpdate key1 frame2;
          EvResponse 1 (tooMany 5); EvResponse 2 (tooMany 3);
          EvRtc sessionEnd]
         (init me)).
Proof.
  apply single_slot_run; [apply single_slot_init|].
  vm_compute. repeat split.
Defined.

(** ** The answer to a retry *)


